(** * Streaming service adapters: Pocket TTS (HTTP) and Vosk STT (WebSocket)

    A shallow embedding of [pipecat/services/kyutai/tts.py] and
    [pipecat/services/vosk/stt.py].  Asynchronous generators are modelled as
    computations that thread the adapter's attributes, collect the frames they
    yield in order, and finish by returning or by raising a Python
    [Exception]; the network peer of one call is a script that says what
    each awaited operation does. *)

From Stdlib Require Import List String Ascii ZArith Bool Lia Arith.
From Stdlib Require Import DecimalString.
From Stdlib.Strings Require Byte.
From Stdlib Require PrimFloat.
Import ListNotations.

Set Warnings "-register-all".

Local Open Scope string_scope.
Local Open Scope list_scope.

(** ** Python values *)

(** An instance of Python's [Exception], by what [str(e)] and the f-string
    [{e}] print.  Task cancellation ([asyncio.CancelledError]) is not an
    [Exception] and belongs to the scheduler, which this sequential model does
    not cover. *)
Record Exception : Type := mkException { str_e : string }.

Definition bytes := list Byte.byte.

(** What [json.loads] returns: [None], [bool], [int], [float], [str], [list],
    or a [dict] with string keys (kept in insertion order, the first binding
    of a key is the live one). *)
Inductive json : Type :=
| JNone
| JBool (b : bool)
| JInt (n : Z)
| JFloat (x : PrimFloat.float)
| JStr (s : string)
| JList (items : list json)
| JDict (fields : list (string * json)).

(** [f"{n}"] for an [int]. *)
Definition str_int (n : Z) : string := NilZero.string_of_int (Z.to_int n).

(** [needle in hay] for two [str]. *)
Fixpoint str_contains (needle hay : string) : bool :=
  String.prefix needle hay
  || match hay with
     | EmptyString => false
     | String _ rest => str_contains needle rest
     end.

(** Python truthiness, [bool(v)]. *)
Definition truthy (v : json) : bool :=
  match v with
  | JNone => false
  | JBool b => b
  | JInt n => negb (n =? 0)%Z
  | JFloat x => negb (PrimFloat.eqb x PrimFloat.zero)
  | JStr s => negb (s =? "")
  | JList items => match items with [] => false | _ :: _ => true end
  | JDict fields => match fields with [] => false | _ :: _ => true end
  end.

Fixpoint dict_get (key : string) (fields : list (string * json)) : option json :=
  match fields with
  | [] => None
  | (k, v) :: rest => if k =? key then Some v else dict_get key rest
  end.

(** ** Frames ([pipecat.frames.frames]) *)

Inductive Language : Type := EN | OtherLanguage (tag : string).

Inductive Frame : Type :=
| ErrorFrame (error : string)
| TTSStartedFrame
| TTSStoppedFrame
| TTSAudioRawFrame (audio : bytes) (sample_rate : Z) (num_channels : Z)
| TranscriptionFrame (text : json) (user_id : string) (timestamp : string)
                     (language : Language)
| InterimTranscriptionFrame (text : json) (user_id : string)
                            (timestamp : string) (language : Language).

Definition is_error (f : Frame) : bool :=
  match f with ErrorFrame _ => true | _ => false end.
Definition is_started (f : Frame) : bool :=
  match f with TTSStartedFrame => true | _ => false end.
Definition is_stopped (f : Frame) : bool :=
  match f with TTSStoppedFrame => true | _ => false end.
Definition is_audio (f : Frame) : bool :=
  match f with TTSAudioRawFrame _ _ _ => true | _ => false end.
Definition is_final (f : Frame) : bool :=
  match f with TranscriptionFrame _ _ _ _ => true | _ => false end.
Definition is_partial (f : Frame) : bool :=
  match f with InterimTranscriptionFrame _ _ _ _ => true | _ => false end.

Definition count (p : Frame -> bool) (fs : list Frame) : nat :=
  List.length (List.filter p fs).

(** The PCM payload carried by a frame sequence, in order. *)
Definition audio_of (f : Frame) : bytes :=
  match f with TTSAudioRawFrame audio _ _ => audio | _ => [] end.
Definition audio_bytes (fs : list Frame) : bytes := List.flat_map audio_of fs.

(** ** Coroutines that yield frames *)

Inductive outcome (A : Type) : Type :=
| Returned (a : A)
| Raised (e : Exception).
Arguments Returned {A} a.
Arguments Raised {A} e.

Section Generator.
(** [St] holds the attributes of [self] and whatever of the outside world
    the coroutine writes to. *)
Context {St : Type}.

Record run (A : Type) : Type := mkRun {
  frames : list Frame;   (* yielded (or pushed), oldest first *)
  after : St;
  result : outcome A
}.
Arguments mkRun {A}.
Arguments frames {A}.
Arguments after {A}.
Arguments result {A}.

Definition gen (A : Type) : Type := St -> run A.

Definition ret {A} (a : A) : gen A := fun s => mkRun [] s (Returned a).
Definition raise {A} (e : Exception) : gen A := fun s => mkRun [] s (Raised e).
Definition yield (f : Frame) : gen unit := fun s => mkRun [f] s (Returned tt).
Definition get : gen St := fun s => mkRun [] s (Returned s).
Definition modify (f : St -> St) : gen unit :=
  fun s => mkRun [] (f s) (Returned tt).

Definition bind {A B} (m : gen A) (k : A -> gen B) : gen B :=
  fun s =>
    match m s with
    | mkRun fs s1 (Returned a) =>
        match k a s1 with
        | mkRun fs' s2 o => mkRun (fs ++ fs') s2 o
        end
    | mkRun fs s1 (Raised e) => mkRun fs s1 (Raised e)
    end.

(** [try: m  except Exception as e: handler e] *)
Definition try_except {A} (m : gen A) (handler : Exception -> gen A) : gen A :=
  fun s =>
    match m s with
    | mkRun fs s1 (Returned a) => mkRun fs s1 (Returned a)
    | mkRun fs s1 (Raised e) =>
        match handler e s1 with
        | mkRun fs' s2 o => mkRun (fs ++ fs') s2 o
        end
    end.

(** [try: m  finally: cleanup]: the cleanup runs on every exit; what the
    body returned or raised stands unless the cleanup itself raises. *)
Definition try_finally {A} (m : gen A) (cleanup : gen unit) : gen A :=
  fun s =>
    match m s with
    | mkRun fs s1 o =>
        match cleanup s1 with
        | mkRun fs' s2 (Returned _) => mkRun (fs ++ fs') s2 o
        | mkRun fs' s2 (Raised e) => mkRun (fs ++ fs') s2 (Raised e)
        end
    end.

(** Awaiting something whose result the peer decides. *)
Definition await {A} (o : outcome A) : gen A :=
  fun s => mkRun [] s o.
End Generator.

Arguments mkRun {St A}.
Arguments frames {St A}.
Arguments after {St A}.
Arguments result {St A}.
Arguments gen : clear implicits.

Declare Scope gen_scope.
Delimit Scope gen_scope with gen.
Notation "x <- m ;; k" := (bind m (fun x => k))
  (at level 100, m at next level, right associativity) : gen_scope.
Notation "m ;; k" := (bind m (fun _ => k))
  (at level 100, right associativity) : gen_scope.

Local Open Scope gen_scope.

(** [async for x in src: body x], where [src] has already been unfolded into
    the items it produces and the way it ends. *)
Fixpoint async_for {St X : Type} (items : list X) (ending : outcome unit)
                   (body : X -> gen St unit) : gen St unit :=
  match items with
  | [] => await ending
  | x :: rest => body x ;; async_for rest ending body
  end.

(** * Pocket TTS ([pipecat/services/kyutai/tts.py]) *)

Module Kyutai.

(** [aiohttp.ClientSession], by its [closed] property. *)
Inductive ClientSession : Type := SessionOpen | SessionClosed.

Definition closed (c : ClientSession) : bool :=
  match c with SessionOpen => false | SessionClosed => true end.

(** The attributes of a [PocketTTSService], together with what the calls
    write outside it: the requests posted and the lines given to
    [logger.error]. *)
Record PocketTTSService : Type := mkService {
  _base_url : string;
  _voice_id : option string;
  sample_rate : Z;
  chunk_size : nat;             (* TTSService.chunk_size, the output chunk size *)
  _session : option ClientSession;
  ttfb_open : bool;             (* the TTFB window of the metrics tracker *)
  usage_reports : list nat;     (* characters reported, one entry per request *)
  posted : list (string * string);  (* url and form field [text] *)
  error_log : list string
}.

Definition set_session (c : option ClientSession) (s : PocketTTSService) :=
  mkService (_base_url s) (_voice_id s) (sample_rate s) (chunk_size s) c
            (ttfb_open s) (usage_reports s) (posted s) (error_log s).
Definition set_ttfb (b : bool) (s : PocketTTSService) :=
  mkService (_base_url s) (_voice_id s) (sample_rate s) (chunk_size s)
            (_session s) b (usage_reports s) (posted s) (error_log s).
Definition add_usage (n : nat) (s : PocketTTSService) :=
  mkService (_base_url s) (_voice_id s) (sample_rate s) (chunk_size s)
            (_session s) (ttfb_open s) (usage_reports s ++ [n]) (posted s)
            (error_log s).
Definition add_post (url text : string) (s : PocketTTSService) :=
  mkService (_base_url s) (_voice_id s) (sample_rate s) (chunk_size s)
            (_session s) (ttfb_open s) (usage_reports s)
            (posted s ++ [(url, text)]) (error_log s).
Definition add_error_log (line : string) (s : PocketTTSService) :=
  mkService (_base_url s) (_voice_id s) (sample_rate s) (chunk_size s)
            (_session s) (ttfb_open s) (usage_reports s) (posted s)
            (error_log s ++ [line]).

(** [base_url.rstrip("/")] *)
Fixpoint rstrip_slash (s : string) : string :=
  match s with
  | EmptyString => EmptyString
  | String c rest =>
      match rstrip_slash rest with
      | EmptyString => if Ascii.eqb c "/" then EmptyString else String c EmptyString
      | kept => String c kept
      end
  end.

(** [__init__]; [chunk_size] stands for what the base class takes from
    [kwargs]. *)
Definition __init__ (base_url : string) (voice_id : option string)
                    (sample_rate : Z) (chunk_size : nat) : PocketTTSService :=
  mkService (rstrip_slash base_url) voice_id sample_rate chunk_size None
            false [] [] [].

(** Modelled from the spec: the metrics tracker of the base class, absent
    from the sources.  [startTTFB] opens a window, [stopTTFB] closes it and is
    a no-op when none is open; usage is reported once per request. *)
Definition start_ttfb_metrics : gen PocketTTSService unit :=
  modify (set_ttfb true).
Definition stop_ttfb_metrics : gen PocketTTSService unit :=
  modify (set_ttfb false).
Definition start_tts_usage_metrics (text : string) : gen PocketTTSService unit :=
  modify (add_usage (String.length text)).

Definition logger_error (line : string) : gen PocketTTSService unit :=
  modify (add_error_log line).

Definition start : gen PocketTTSService unit :=
  modify (set_session (Some SessionOpen)).

Definition stop : gen PocketTTSService unit :=
  self <- get ;;
  match _session self with
  | Some _ => modify (set_session None)
  | None => ret tt
  end.

(** ** The HTTP peer of one call *)

Inductive stream_end : Type :=
| EndOfStream
| StreamRaises (e : Exception).

(** [response.content.iter_chunked(n)]: the chunks the transport delivers, in
    order, and how the iteration ends. *)
Record content_stream : Type := mkContent {
  delivered : list bytes;
  ending : stream_end
}.

Record ClientResponse : Type := mkResponse {
  status : Z;
  text : outcome string;        (* what [await response.text()] does *)
  content : content_stream
}.

(** What [self._session.post(url, data=data)] does when entered. *)
Inductive exchange : Type :=
| PostRaises (e : Exception)
| Responds (response : ClientResponse).

Definition post (url text : string) (peer : exchange)
  : gen PocketTTSService ClientResponse :=
  modify (add_post url text) ;;
  await (match peer with
         | PostRaises e => Raised e
         | Responds response => Returned response
         end).

(** ** Header stripping and re-chunking *)

Definition WAV_HEADER_SIZE : nat := 44.

(** Cuts whole frames of [size] bytes off the front of [buf]; what is left is
    shorter than [size].  [fuel] bounds the number of frames. *)
Fixpoint cut_frames (fuel size : nat) (buf : bytes) : list bytes * bytes :=
  match fuel with
  | O => ([], buf)
  | S fuel' =>
      if (size =? 0)%nat || (List.length buf <? size)%nat then ([], buf)
      else
        let (more, left) := cut_frames fuel' size (skipn size buf) in
        (firstn size buf :: more, left)
  end.

Definition reframe (size : nat) (buf : bytes) : list bytes * bytes :=
  cut_frames (List.length buf) size buf.

(** The loop of the helper below: [to_skip] header bytes are still to be
    discarded, [buffer] holds payload not yet emitted. *)
Fixpoint stream_frames (size : nat) (rate : Z) (to_skip : nat) (buffer : bytes)
                       (chunks : list bytes) (fin : stream_end)
  : list Frame * outcome unit :=
  match chunks with
  | [] =>
      match fin with
      | EndOfStream =>
          (match buffer with
           | [] => []
           | _ :: _ => [TTSAudioRawFrame buffer rate 1]
           end, Returned tt)
      | StreamRaises e => ([], Raised e)
      end
  | chunk :: rest =>
      let (whole, left) := reframe size (buffer ++ skipn to_skip chunk) in
      let (later, fin') :=
        stream_frames size rate (to_skip - List.length chunk) left rest fin in
      (List.map (fun a => TTSAudioRawFrame a rate 1) whole ++ later, fin')
  end.

(** Modelled from the spec: [TTSService._stream_audio_frames_from_iterator],
    absent from the sources.  It discards the container header, exactly
    [WAV_HEADER_SIZE] bytes, once, at the start of the stream, buffering until
    the header length is satisfied however the transport chunks delivery; the
    remaining bytes are forwarded as audio frames sized to the configured
    chunk size, the last one holding what is left when the stream ends.  An
    exception of the transport's iterator goes through it unchanged. *)
Definition _stream_audio_frames_from_iterator
    (self : PocketTTSService) (iterator : content_stream)
    (strip_wav_header : bool) : list Frame * outcome unit :=
  stream_frames (chunk_size self) (sample_rate self)
                (if strip_wav_header then WAV_HEADER_SIZE else 0) []
                (delivered iterator) (ending iterator).

(** ** [run_tts] *)

(** The body of the loop over the audio frames. *)
Definition relay (frame : Frame) : gen PocketTTSService unit :=
  stop_ttfb_metrics ;; yield frame.

(** The [try] block: the request, the status check and the streaming read. *)
Definition run_tts_try (self : PocketTTSService) (text_in url : string)
                       (peer : exchange) : gen PocketTTSService unit :=
  start_ttfb_metrics ;;
  response <- post url text_in peer ;;
  if negb (status response =? 200)%Z then
    error_text <- await (text response) ;;
    logger_error ("Pocket TTS error: " ++ str_int (status response)
                  ++ " - " ++ error_text)%string ;;
    yield (ErrorFrame ("Pocket TTS error: " ++ str_int (status response))%string)
  else
    start_tts_usage_metrics text_in ;;
    yield TTSStartedFrame ;;
    let audio :=
      _stream_audio_frames_from_iterator self (content response) true in
    async_for (fst audio) (snd audio) relay.

(** The [except Exception as e] block. *)
Definition run_tts_except (e : Exception) : gen PocketTTSService unit :=
  logger_error ("Pocket TTS exception: " ++ str_e e)%string ;;
  yield (ErrorFrame ("Pocket TTS exception: " ++ str_e e)%string).

(** The [finally] block. *)
Definition run_tts_finally : gen PocketTTSService unit :=
  stop_ttfb_metrics ;; yield TTSStoppedFrame.

Definition run_tts (text_in : string) (peer : exchange)
  : gen PocketTTSService unit :=
  self <- get ;;
  (match _session self with
   | Some c => if closed c then modify (set_session (Some SessionOpen)) else ret tt
   | None => modify (set_session (Some SessionOpen))
   end) ;;
  let url := (_base_url self ++ "/tts")%string in
  try_finally
    (try_except (run_tts_try self text_in url peer) run_tts_except)
    run_tts_finally.

(** The error frames of the [except] block and of the status check. *)
Definition exception_frame (e : Exception) : Frame :=
  ErrorFrame ("Pocket TTS exception: " ++ str_e e)%string.

Definition status_frame (st : Z) : Frame :=
  ErrorFrame ("Pocket TTS error: " ++ str_int st)%string.

(** An exception [e] raised during the HTTP exchange or the stream read: by
    the request itself, by reading the body of a response that is not a 200,
    or by the iterator over the body of a 200. *)
Inductive raises (e : Exception) : exchange -> Prop :=
| raises_on_post : raises e (PostRaises e)
| raises_on_text : forall st c,
    st <> 200%Z -> raises e (Responds (mkResponse st (Raised e) c))
| raises_on_read : forall t chunks,
    raises e (Responds (mkResponse 200 t (mkContent chunks (StreamRaises e)))).

(** A status outside 200..299. *)
Definition non_2xx (st : Z) : Prop := (st < 200 \/ 300 <= st)%Z.

(** [s.endswith("/")] and a run of [k] slashes. *)
Fixpoint ends_with_slash (s : string) : bool :=
  match s with
  | EmptyString => false
  | String c EmptyString => Ascii.eqb c "/"
  | String _ rest => ends_with_slash rest
  end.

Fixpoint slashes (k : nat) : string :=
  match k with
  | O => EmptyString
  | S k' => String "/" (slashes k')
  end.

(** The lines [run_tts] gives to [logger.error] and the usage it reports,
    read off the peer's script. *)
Definition logged_errors (peer : exchange) : list string :=
  match peer with
  | PostRaises e => [("Pocket TTS exception: " ++ str_e e)%string]
  | Responds r =>
      if (status r =? 200)%Z then
        match ending (content r) with
        | EndOfStream => []
        | StreamRaises e => [("Pocket TTS exception: " ++ str_e e)%string]
        end
      else
        match text r with
        | Returned body =>
            [("Pocket TTS error: " ++ str_int (status r) ++ " - " ++ body)%string]
        | Raised e => [("Pocket TTS exception: " ++ str_e e)%string]
        end
  end.

Definition is_ok (peer : exchange) : bool :=
  match peer with
  | PostRaises _ => false
  | Responds r => (status r =? 200)%Z
  end.

End Kyutai.


(** * Vosk STT ([pipecat/services/vosk/stt.py]) *)

Module Vosk.

(** A connection object returned by [websockets.connect]. *)
Definition WebSocket : Type := nat.

(** What the adapter does on the network, in order.  A text frame is kept as
    the value given to [json.dumps]. *)
Inductive wire_op : Type :=
| Connect (uri : string)
| SendText (ws : WebSocket) (payload : json)
| SendBinary (ws : WebSocket) (audio : bytes)
| Close (ws : WebSocket).

(** The attributes of a [VoskSTTService], the network trace and the lines
    given to [logger.error]. *)
Record VoskSTTService : Type := mkService {
  _uri : string;
  _sample_rate : Z;
  _language : Language;
  _user_id : string;
  _websocket : option WebSocket;
  ttfb_open : bool;
  processing_open : bool;
  wire : list wire_op;
  error_log : list string
}.

Definition set_websocket (w : option WebSocket) (s : VoskSTTService) :=
  mkService (_uri s) (_sample_rate s) (_language s) (_user_id s) w
            (ttfb_open s) (processing_open s) (wire s) (error_log s).
Definition set_ttfb (b : bool) (s : VoskSTTService) :=
  mkService (_uri s) (_sample_rate s) (_language s) (_user_id s)
            (_websocket s) b (processing_open s) (wire s) (error_log s).
Definition set_processing (b : bool) (s : VoskSTTService) :=
  mkService (_uri s) (_sample_rate s) (_language s) (_user_id s)
            (_websocket s) (ttfb_open s) b (wire s) (error_log s).
Definition add_wire (op : wire_op) (s : VoskSTTService) :=
  mkService (_uri s) (_sample_rate s) (_language s) (_user_id s)
            (_websocket s) (ttfb_open s) (processing_open s) (wire s ++ [op])
            (error_log s).
Definition add_error_log (line : string) (s : VoskSTTService) :=
  mkService (_uri s) (_sample_rate s) (_language s) (_user_id s)
            (_websocket s) (ttfb_open s) (processing_open s) (wire s)
            (error_log s ++ [line]).

(** [__init__]: the base classes start with no connection; [user_id] stands
    for what they take from [kwargs]. *)
Definition __init__ (uri : string) (sample_rate : Z) (language : Language)
                    (user_id : string) : VoskSTTService :=
  mkService uri sample_rate language user_id None false false [] [].

(** The spec's [ConnectionState] in terms of the only thing the adapter
    keeps, the connection handle. *)
Definition Disconnected (self : VoskSTTService) : Prop :=
  _websocket self = None.

(** Modelled from the spec: the metrics tracker of the base class, absent
    from the sources; opening and closing a window, closing being a no-op
    when none is open. *)
Definition start_ttfb_metrics : gen VoskSTTService unit := modify (set_ttfb true).
Definition stop_ttfb_metrics : gen VoskSTTService unit := modify (set_ttfb false).
Definition start_processing_metrics : gen VoskSTTService unit :=
  modify (set_processing true).
Definition stop_processing_metrics : gen VoskSTTService unit :=
  modify (set_processing false).

Definition logger_error (line : string) : gen VoskSTTService unit :=
  modify (add_error_log line).

(** [push_frame]: the frame goes to the sink, in order. *)
Definition push_frame (f : Frame) : gen VoskSTTService unit := yield f.

(** ** Connecting and disconnecting *)

(** What the peer does during [_connect_websocket]. *)
Record connect_script : Type := mkConnect {
  opening : outcome WebSocket;   (* [await websockets.connect(uri)] *)
  handshake : outcome unit       (* [await ws.send(config)] *)
}.

Definition websockets_connect (uri : string) (o : outcome WebSocket)
  : gen VoskSTTService WebSocket :=
  modify (add_wire (Connect uri)) ;; await o.

(** [await self._websocket.send(payload)] *)
Definition websocket_send (op : WebSocket -> wire_op) (o : outcome unit)
  : gen VoskSTTService unit :=
  self <- get ;;
  match _websocket self with
  | Some ws => modify (add_wire (op ws)) ;; await o
  | None =>
      raise (mkException "'NoneType' object has no attribute 'send'")
  end.

Definition config_message (sample_rate : Z) : json :=
  JDict [("config", JDict [("sample_rate", JInt sample_rate)])].

Definition _connect_websocket (peer : connect_script)
  : gen VoskSTTService unit :=
  try_except
    (self <- get ;;
     ws <- websockets_connect (_uri self) (opening peer) ;;
     modify (set_websocket (Some ws)) ;;
     websocket_send (fun ws => SendText ws (config_message (_sample_rate self)))
                    (handshake peer))
    (fun e =>
       logger_error ("Error connecting to Vosk: " ++ str_e e)%string ;;
       raise e).

(** [await self._websocket.close()]; closing does not raise. *)
Definition websocket_close (ws : WebSocket) : gen VoskSTTService unit :=
  modify (add_wire (Close ws)).

Definition _disconnect_websocket : gen VoskSTTService unit :=
  self <- get ;;
  match _websocket self with
  | Some ws => websocket_close ws ;; modify (set_websocket None)
  | None => ret tt
  end.

(** Modelled from the spec: [_connect] and [_disconnect] of the websocket
    base class, absent from the sources; [connect()] establishes the
    connection and sends the handshake, [disconnect()] closes it. *)
Definition _connect (peer : connect_script) : gen VoskSTTService unit :=
  _connect_websocket peer.
Definition _disconnect : gen VoskSTTService unit := _disconnect_websocket.

(** ** The receive loop *)

(** A frame read from the socket, by what [json.loads] makes of it. *)
Inductive message : Type :=
| JsonText (data : json)
| Malformed (error : Exception).   (* the [JSONDecodeError] raised *)

Definition json_loads (m : message) : outcome json :=
  match m with
  | JsonText data => Returned data
  | Malformed error => Raised error
  end.

(** A message and what [time_now_iso8601()] reads while it is handled. *)
Record arrival : Type := mkArrival {
  payload : message;
  now : string
}.

Definition type_name (v : json) : string :=
  match v with
  | JNone => "NoneType"
  | JBool _ => "bool"
  | JInt _ => "int"
  | JFloat _ => "float"
  | JStr _ => "str"
  | JList _ => "list"
  | JDict _ => "dict"
  end.

Definition is_str (key : string) (v : json) : bool :=
  match v with JStr s => (s =? key)%string | _ => false end.

(** [key in data] *)
Definition contains (key : string) (data : json) : outcome bool :=
  match data with
  | JDict fields =>
      Returned (match dict_get key fields with Some _ => true | None => false end)
  | JList items => Returned (existsb (is_str key) items)
  | JStr s => Returned (str_contains key s)
  | _ =>
      Raised (mkException ("argument of type '" ++ type_name data
                           ++ "' is not iterable")%string)
  end.

(** [data[key]] for a [str] key *)
Definition getitem (data : json) (key : string) : outcome json :=
  match data with
  | JDict fields =>
      match dict_get key fields with
      | Some v => Returned v
      | None => Raised (mkException ("'" ++ key ++ "'")%string)
      end
  | JList _ =>
      Raised (mkException "list indices must be integers or slices, not str")
  | JStr _ =>
      Raised (mkException "string indices must be integers, not 'str'")
  | _ =>
      Raised (mkException ("'" ++ type_name data
                           ++ "' object is not subscriptable")%string)
  end.

(** The body of the loop of [_receive_messages]. *)
Definition on_message (a : arrival) : gen VoskSTTService unit :=
  self <- get ;;
  data <- await (json_loads (payload a)) ;;
  has_text <- await (contains "text" data) ;;
  if has_text : bool then
    text <- await (getitem data "text") ;;
    if truthy text then
      push_frame (TranscriptionFrame text (_user_id self) (now a)
                                     (_language self))
    else ret tt
  else
    has_partial <- await (contains "partial" data) ;;
    if has_partial : bool then
      partial <- await (getitem data "partial") ;;
      if truthy partial then
        push_frame (InterimTranscriptionFrame partial (_user_id self) (now a)
                                              (_language self))
      else ret tt
    else ret tt.

(** The message is a JSON object with the field [key]. *)
Definition has_field (key : string) (data : json) : bool :=
  match data with
  | JDict fields =>
      match dict_get key fields with Some _ => true | None => false end
  | _ => false
  end.

(** The message is a JSON object whose field [key] is non-empty (truthy). *)
Definition nonempty_field (key : string) (data : json) : bool :=
  match data with
  | JDict fields =>
      match dict_get key fields with Some v => truthy v | None => false end
  | _ => false
  end.

(** The recognized shapes, in the spec's words, [text] being looked at
    first: a non-empty [text] gives a final transcription; without a [text]
    field, a non-empty [partial] gives an interim one; anything else gives
    nothing. *)
Definition recognized (self : VoskSTTService) (now : string) (data : json)
  : list Frame :=
  match data with
  | JDict fields =>
      match dict_get "text" fields with
      | Some v =>
          if truthy v
          then [TranscriptionFrame v (_user_id self) now (_language self)]
          else []
      | None =>
          match dict_get "partial" fields with
          | Some v =>
              if truthy v
              then [InterimTranscriptionFrame v (_user_id self) now
                                              (_language self)]
              else []
          | None => []
          end
      end
  | _ => []
  end.

(** How iterating the socket ends, once it has delivered its messages. *)
Inductive socket_end : Type :=
| ClosedOK                       (* the iteration stops *)
| ClosedError (e : Exception).   (* the iteration raises *)

Definition socket_outcome (fin : socket_end) : outcome unit :=
  match fin with
  | ClosedOK => Returned tt
  | ClosedError e => Raised e
  end.

Definition _receive_messages (inbound : list arrival) (fin : socket_end)
  : gen VoskSTTService unit :=
  self <- get ;;
  match _websocket self with
  | Some _ => async_for inbound (socket_outcome fin) on_message
  | None =>
      raise (mkException
               "'async for' requires an object with __aiter__ method, got NoneType")
  end.

(** ** [run_stt] *)

Definition run_stt (audio : bytes) (peer : connect_script)
                   (sending : outcome unit) : gen VoskSTTService unit :=
  self <- get ;;
  (match _websocket self with
   | Some _ => ret tt
   | None => _connect peer
   end) ;;
  try_finally
    (try_except
       (start_processing_metrics ;;
        start_ttfb_metrics ;;
        websocket_send (fun ws => SendBinary ws audio) sending)
       (fun e =>
          logger_error ("Vosk STT error: " ++ str_e e)%string ;;
          yield (ErrorFrame ("Vosk STT error: " ++ str_e e)%string)))
    (stop_ttfb_metrics ;; stop_processing_metrics).

(** A message that decodes to a JSON object; one that decodes to [None], a
    [bool] or a number. *)
Definition is_object (a : arrival) : bool :=
  match payload a with
  | JsonText (JDict _) => true
  | _ => false
  end.

Definition is_scalar (data : json) : bool :=
  match data with
  | JNone | JBool _ | JInt _ | JFloat _ => true
  | _ => false
  end.

(** The events of one message of the inbound stream. *)
Definition events_of (self : VoskSTTService) (a : arrival) : list Frame :=
  match payload a with
  | JsonText data => recognized self (now a) data
  | Malformed _ => []
  end.

End Vosk.


(** * Counting frames *)

Lemma count_app (p : Frame -> bool) (xs ys : list Frame) :
  count p (xs ++ ys) = (count p xs + count p ys)%nat.
Proof. unfold count. rewrite filter_app, length_app. reflexivity. Qed.

(** * Properties of the Pocket TTS adapter *)

Module KyutaiFacts.
Import Kyutai.

(** ** Re-chunking *)

Lemma cut_frames_concat (fuel size : nat) (buf : bytes) :
  List.concat (fst (cut_frames fuel size buf)) ++ snd (cut_frames fuel size buf)
  = buf.
Proof.
  revert buf; induction fuel as [|fuel IH]; intros buf; simpl; [reflexivity|].
  destruct ((size =? 0)%nat || (List.length buf <? size)%nat); simpl;
    [reflexivity|].
  specialize (IH (skipn size buf)).
  destruct (cut_frames fuel size (skipn size buf)) as [more left]; simpl in *.
  rewrite <- app_assoc, IH. apply firstn_skipn.
Qed.

Lemma cut_frames_sizes (fuel size : nat) (buf : bytes) :
  Forall (fun a => List.length a = size) (fst (cut_frames fuel size buf)).
Proof.
  revert buf; induction fuel as [|fuel IH]; intros buf; simpl; [constructor|].
  destruct (size =? 0)%nat eqn:Hz; simpl; [constructor|].
  destruct (List.length buf <? size)%nat eqn:Hlt; simpl; [constructor|].
  specialize (IH (skipn size buf)).
  destruct (cut_frames fuel size (skipn size buf)) as [more left]; simpl in *.
  constructor; [|exact IH].
  apply Nat.ltb_ge in Hlt. apply firstn_length_le; exact Hlt.
Qed.

(** The fuel [reframe] gives is enough: no whole frame is left behind. *)
Lemma cut_frames_left (fuel size : nat) (buf : bytes) :
  (0 < size)%nat -> (List.length buf <= fuel)%nat ->
  (List.length (snd (cut_frames fuel size buf)) < size)%nat.
Proof.
  intros Hsize; revert buf; induction fuel as [|fuel IH]; intros buf Hfuel.
  - simpl. lia.
  - simpl. destruct (size =? 0)%nat eqn:Hz; [apply Nat.eqb_eq in Hz; lia|].
    destruct (List.length buf <? size)%nat eqn:Hlt; simpl.
    + apply Nat.ltb_lt in Hlt; exact Hlt.
    + apply Nat.ltb_ge in Hlt.
      assert (Hskip : (List.length (skipn size buf) <= fuel)%nat)
        by (rewrite length_skipn; lia).
      specialize (IH _ Hskip).
      destruct (cut_frames fuel size (skipn size buf)); exact IH.
Qed.

Lemma reframe_left (size : nat) (buf : bytes) :
  (0 < size)%nat -> (List.length (snd (reframe size buf)) < size)%nat.
Proof. intros H; apply cut_frames_left; [exact H | apply Nat.le_refl]. Qed.

Lemma audio_bytes_app (xs ys : list Frame) :
  audio_bytes (xs ++ ys) = audio_bytes xs ++ audio_bytes ys.
Proof. unfold audio_bytes; apply flat_map_app. Qed.

Lemma audio_bytes_wrap (rate ch : Z) (payloads : list bytes) :
  audio_bytes (List.map (fun a => TTSAudioRawFrame a rate ch) payloads)
  = List.concat payloads.
Proof.
  induction payloads as [|a rest IH]; simpl; [reflexivity|].
  unfold audio_bytes in *; simpl; rewrite IH; reflexivity.
Qed.

(** ** The streaming helper *)

Lemma stream_frames_result size rate k buf chunks fin :
  snd (stream_frames size rate k buf chunks fin)
  = match fin with EndOfStream => Returned tt | StreamRaises e => Raised e end.
Proof.
  revert k buf; induction chunks as [|chunk rest IH]; intros k buf; simpl.
  - destruct fin; reflexivity.
  - destruct (reframe size (buf ++ skipn k chunk)) as [whole left].
    specialize (IH (k - List.length chunk) left).
    destruct (stream_frames size rate (k - List.length chunk) left rest fin).
    exact IH.
Qed.

Lemma stream_frames_audio size rate k buf chunks fin :
  forallb is_audio (fst (stream_frames size rate k buf chunks fin)) = true.
Proof.
  revert k buf; induction chunks as [|chunk rest IH]; intros k buf; simpl.
  - destruct fin; [destruct buf|]; reflexivity.
  - destruct (reframe size (buf ++ skipn k chunk)) as [whole left].
    specialize (IH (k - List.length chunk) left).
    destruct (stream_frames size rate (k - List.length chunk) left rest fin).
    simpl in *. rewrite forallb_app, IH, andb_true_r.
    clear; induction whole; simpl; auto.
Qed.

(** Whatever the chunking, a stream read to its end yields what was buffered
    followed by the stream without its first [k] bytes. *)
Lemma stream_frames_bytes size rate k buf chunks :
  audio_bytes (fst (stream_frames size rate k buf chunks EndOfStream))
  = buf ++ skipn k (List.concat chunks).
Proof.
  revert k buf; induction chunks as [|chunk rest IH]; intros k buf; simpl.
  - rewrite skipn_nil, app_nil_r. destruct buf; [reflexivity|].
    unfold audio_bytes; simpl; rewrite app_nil_r; reflexivity.
  - pose proof (cut_frames_concat (List.length (buf ++ skipn k chunk)) size
                                  (buf ++ skipn k chunk)) as Hcut.
    unfold reframe.
    destruct (cut_frames _ size (buf ++ skipn k chunk)) as [whole left].
    simpl in Hcut.
    specialize (IH (k - List.length chunk) left).
    destruct (stream_frames size rate (k - List.length chunk) left rest
                            EndOfStream) as [later fin'].
    simpl in *.
    rewrite audio_bytes_app, audio_bytes_wrap, IH, app_assoc, Hcut.
    rewrite skipn_app, app_assoc. reflexivity.
Qed.

(** ** [run_tts], case by case *)

Lemma async_for_relay items fin (s : PocketTTSService) :
  async_for items fin relay s
  = mkRun items (match items with [] => s | _ :: _ => set_ttfb false s end) fin.
Proof.
  revert s; induction items as [|x rest IH]; intros s; [reflexivity|].
  simpl async_for. unfold bind at 1. cbn -[async_for].
  rewrite IH. destruct rest; reflexivity.
Qed.

Ltac step :=
  cbv beta iota zeta delta
    [run_tts run_tts_try run_tts_except run_tts_finally post
     start_ttfb_metrics stop_ttfb_metrics start_tts_usage_metrics
     logger_error try_finally try_except bind modify yield await get ret
     raise closed status text content delivered ending _session negb];
  cbn [frames after result app].

(** The frames of one call, read off the peer's script. *)
Lemma run_tts_frames text_in peer s :
  frames (run_tts text_in peer s)
  = match peer with
    | PostRaises e => [exception_frame e; TTSStoppedFrame]
    | Responds r =>
        if (status r =? 200)%Z then
          TTSStartedFrame
            :: fst (_stream_audio_frames_from_iterator s (content r) true)
            ++ match ending (content r) with
               | EndOfStream => []
               | StreamRaises e => [exception_frame e]
               end
            ++ [TTSStoppedFrame]
        else
          match text r with
          | Returned _ => [status_frame (status r); TTSStoppedFrame]
          | Raised e => [exception_frame e; TTSStoppedFrame]
          end
    end.
Proof.
  destruct peer as [e | [st tx [chunks fin]]].
  - destruct s as [bu vi sr cs [[|]|] tb us po el]; reflexivity.
  - destruct s as [bu vi sr cs sess tb us po el].
    destruct (st =? 200)%Z eqn:Hst.
    + destruct sess as [[|]|]; step; rewrite Hst; step;
        rewrite async_for_relay; step;
        unfold _stream_audio_frames_from_iterator;
        rewrite stream_frames_result; destruct fin; step;
        rewrite <- ?app_assoc; reflexivity.
    + destruct sess as [[|]|]; step; rewrite Hst; step;
        destruct tx; step; reflexivity.
Qed.

Lemma run_tts_result text_in peer s :
  result (run_tts text_in peer s) = Returned tt.
Proof.
  destruct s as [bu vi sr cs sess tb us po el].
  destruct peer as [e | [st tx [chunks fin]]].
  - destruct sess as [[|]|]; reflexivity.
  - destruct (st =? 200)%Z eqn:Hst.
    + destruct sess as [[|]|]; step; rewrite Hst; step;
        rewrite async_for_relay; step;
        unfold _stream_audio_frames_from_iterator;
        rewrite stream_frames_result; destruct fin; step; reflexivity.
    + destruct sess as [[|]|]; step; rewrite Hst; step;
        destruct tx; step; reflexivity.
Qed.

(** What a call leaves behind: an open session, the configuration untouched
    and the TTFB window closed. *)
Lemma run_tts_after text_in peer s :
  let s' := after (run_tts text_in peer s) in
  _session s' = Some SessionOpen /\ chunk_size s' = chunk_size s
  /\ sample_rate s' = sample_rate s /\ ttfb_open s' = false.
Proof.
  destruct s as [bu vi sr cs sess tb us po el].
  destruct peer as [e | [st tx [chunks fin]]].
  - destruct sess as [[|]|]; cbv; auto.
  - destruct (st =? 200)%Z eqn:Hst.
    + destruct sess as [[|]|]; step; rewrite Hst; step;
        rewrite async_for_relay; step;
        unfold _stream_audio_frames_from_iterator;
        rewrite stream_frames_result; destruct fin; step;
        destruct (fst _); cbv; auto.
    + destruct sess as [[|]|]; step; rewrite Hst; step;
        destruct tx; cbv; auto.
Qed.

(** The body of a response that is not a 200 goes to the log. *)
Lemma run_tts_logs_body text_in st body c s :
  st <> 200%Z ->
  error_log (after (run_tts text_in (Responds (mkResponse st (Returned body) c)) s))
  = error_log s
    ++ [("Pocket TTS error: " ++ str_int st ++ " - " ++ body)%string].
Proof.
  intros Hst. apply Z.eqb_neq in Hst.
  destruct s as [bu vi sr cs sess tb us po el].
  destruct sess as [[|]|]; step; rewrite Hst; step; reflexivity.
Qed.

(** The frames depend on the adapter only through its configuration. *)
Lemma run_tts_frames_config text_in peer s1 s2 :
  chunk_size s1 = chunk_size s2 -> sample_rate s1 = sample_rate s2 ->
  frames (run_tts text_in peer s1) = frames (run_tts text_in peer s2).
Proof.
  intros Hc Hr. rewrite !run_tts_frames.
  unfold _stream_audio_frames_from_iterator. rewrite Hc, Hr. reflexivity.
Qed.

Lemma audio_only (fs : list Frame) :
  forallb is_audio fs = true ->
  count is_stopped fs = 0%nat /\ count is_error fs = 0%nat
  /\ count is_started fs = 0%nat.
Proof.
  unfold count. induction fs as [|f rest IH]; simpl; [auto|].
  intros H; apply andb_prop in H; destruct H as [Hf Hrest].
  destruct f; try discriminate; simpl; auto.
Qed.

Lemma str_contains_refl (s : string) : str_contains s s = true.
Proof.
  assert (H : String.prefix s s = true).
  { induction s as [|c s IH]; simpl; [reflexivity|].
    destruct (ascii_dec c c) as [_|Hne]; [exact IH | contradiction]. }
  destruct s; simpl in *; [reflexivity | rewrite H; reflexivity].
Qed.

Lemma str_contains_suffix (p s : string) : str_contains s (p ++ s) = true.
Proof.
  induction p as [|c p IH]; simpl.
  - apply str_contains_refl.
  - rewrite IH. apply orb_true_r.
Qed.

(** [raises] is what makes the [try] block of [run_tts] end in an exception. *)
Lemma raises_iff_try_raises e self text_in url peer s :
  result (run_tts_try self text_in url peer s) = Raised e <-> raises e peer.
Proof.
  destruct peer as [e' | [st tx [chunks fin]]].
  - step. split; intros H; inversion H; subst; [constructor | reflexivity].
  - destruct (st =? 200)%Z eqn:Hst.
    + step. rewrite Hst. step. rewrite async_for_relay. step.
      unfold _stream_audio_frames_from_iterator. cbn [delivered ending].
      rewrite stream_frames_result. apply Z.eqb_eq in Hst; subst st.
      split; intros H.
      * destruct fin; inversion H; subst. constructor.
      * inversion H; subst; [congruence | reflexivity].
    + step. rewrite Hst. step. apply Z.eqb_neq in Hst.
      split; intros H.
      * destruct tx; step; inversion H; subst. constructor; exact Hst.
      * inversion H; subst; [reflexivity | congruence].
Qed.

Lemma non_200_frames text_in r s :
  status r <> 200%Z ->
  exists msg,
    frames (run_tts text_in (Responds r) s) = [ErrorFrame msg; TTSStoppedFrame].
Proof.
  intros Hst. apply Z.eqb_neq in Hst.
  rewrite run_tts_frames, Hst.
  destruct (text r); eexists; reflexivity.
Qed.

Lemma ok_audio_bytes text_in body chunks s :
  audio_bytes (frames (run_tts text_in
                 (Responds (mkResponse 200 body (mkContent chunks EndOfStream))) s))
  = skipn 44 (List.concat chunks).
Proof.
  rewrite run_tts_frames. cbn [status text content ending Z.eqb Pos.eqb].
  unfold _stream_audio_frames_from_iterator. cbn [delivered ending].
  change (TTSStartedFrame :: ?l) with ([TTSStartedFrame] ++ l).
  rewrite !audio_bytes_app, stream_frames_bytes.
  unfold audio_bytes; simpl flat_map. rewrite !app_nil_r. reflexivity.
Qed.

(** ** The claims on [run_tts] *)

(** C3.  Every call of [run_tts] (a 200 read to its end, any other status,
    an exception raised by the request, by the body read or by the stream)
    yields exactly one [TTSStoppedFrame], and it is the last frame. *)
Theorem run_tts_stops_once_at_the_end text_in peer s :
  count is_stopped (frames (run_tts text_in peer s)) = 1%nat
  /\ List.last (frames (run_tts text_in peer s)) TTSStartedFrame
     = TTSStoppedFrame.
Proof.
  rewrite run_tts_frames.
  destruct peer as [e | [st tx [chunks fin]]]; [split; reflexivity|].
  cbn [status text content ending].
  destruct (st =? 200)%Z; [|destruct tx; split; reflexivity].
  unfold _stream_audio_frames_from_iterator.
  pose proof (stream_frames_audio (chunk_size s) (sample_rate s)
                WAV_HEADER_SIZE [] chunks fin) as Haudio.
  cbn [delivered ending content].
  destruct (audio_only _ Haudio) as [Hstop _].
  set (audio := fst (stream_frames _ _ _ _ _ _)) in *.
  split.
  - change (TTSStartedFrame :: ?l) with ([TTSStartedFrame] ++ l).
    rewrite !count_app, Hstop. destruct fin; reflexivity.
  - rewrite app_comm_cons, app_assoc. apply last_last.
Qed.

(** C10.  Only status 200 is a success: any other status, 201 and 204
    included, gives an error frame and the Stop marker and nothing else. *)
Theorem only_200_is_success text_in r s :
  status r <> 200%Z ->
  (exists msg,
     frames (run_tts text_in (Responds r) s) = [ErrorFrame msg; TTSStoppedFrame])
  /\ count is_started (frames (run_tts text_in (Responds r) s)) = 0%nat
  /\ count is_audio (frames (run_tts text_in (Responds r) s)) = 0%nat.
Proof.
  intros Hst. apply Z.eqb_neq in Hst.
  rewrite run_tts_frames, Hst.
  destruct (text r); (split; [eexists; reflexivity | split; reflexivity]).
Qed.

Lemma only_200_is_success_witness :
  exists msg,
    frames (run_tts "hello"
              (Responds (mkResponse 204 (Returned "") (mkContent [] EndOfStream)))
              (__init__ "http://localhost:8000" None 24000 4096))
    = [ErrorFrame msg; TTSStoppedFrame].
Proof.
  refine (proj1 (only_200_is_success _ _ _ _)).
  cbn [status]. discriminate.
Defined.

(** C1, as stated, fails: for status 500 and body "backend unavailable"
    the error frame does not carry the body text. *)
Lemma error_frame_lacks_body :
  ~ exists msg,
      In (ErrorFrame msg)
         (frames (run_tts "hello"
                    (Responds (mkResponse 500 (Returned "backend unavailable")
                                          (mkContent [] EndOfStream)))
                    (__init__ "http://localhost:8000" None 24000 4096)))
      /\ str_contains "500" msg = true
      /\ str_contains "backend unavailable" msg = true.
Proof.
  intros [msg [Hin [_ Hbody]]].
  vm_compute in Hin. destruct Hin as [H | [H | []]]; [|discriminate H].
  injection H as <-. vm_compute in Hbody. discriminate Hbody.
Qed.

(** C1, amended.  For a status outside 2xx the frames are one error frame
    immediately followed by the Stop marker, with no Start marker and no
    audio; when the body is read, the error frame is
    [Pocket TTS error: <status>], which carries the status code, and the body
    text goes to the error log only. *)
Theorem non_2xx_error_then_stop text_in r s :
  non_2xx (status r) ->
  (exists msg,
     frames (run_tts text_in (Responds r) s) = [ErrorFrame msg; TTSStoppedFrame])
  /\ forall body, text r = Returned body ->
       frames (run_tts text_in (Responds r) s)
       = [status_frame (status r); TTSStoppedFrame]
       /\ str_contains (str_int (status r))
                       ("Pocket TTS error: " ++ str_int (status r)) = true
       /\ error_log (after (run_tts text_in (Responds r) s))
          = error_log s
            ++ [("Pocket TTS error: " ++ str_int (status r) ++ " - " ++ body)%string].
Proof.
  intros H2xx.
  assert (Hst : status r <> 200%Z) by (unfold non_2xx in H2xx; lia).
  split; [exact (non_200_frames text_in r s Hst)|].
  intros body Hbody. split; [|split].
  - rewrite run_tts_frames, Hbody.
    apply Z.eqb_neq in Hst; rewrite Hst; reflexivity.
  - apply str_contains_suffix.
  - destruct r as [st tx c]; cbn [status text] in *; subst tx.
    apply run_tts_logs_body; exact Hst.
Qed.

Lemma non_2xx_error_then_stop_witness :
  exists msg,
    frames (run_tts "hello"
              (Responds (mkResponse 500 (Returned "backend unavailable")
                                    (mkContent [] EndOfStream)))
              (__init__ "http://localhost:8000" None 24000 4096))
    = [ErrorFrame msg; TTSStoppedFrame].
Proof.
  refine (proj1 (non_2xx_error_then_stop _ _ _ _)).
  unfold non_2xx; cbn [status]; lia.
Defined.

(** C6.  For a 200 response read to its end, however the transport chunks
    it, the audio frames concatenate to the response bytes without their
    first 44: the header is discarded once, before any audio frame, and the
    frames are the Start marker, audio frames only, then the Stop marker. *)
Theorem header_stripped_whatever_the_chunking text_in body chunks s :
  let fs := frames (run_tts text_in
                      (Responds (mkResponse 200 body
                                            (mkContent chunks EndOfStream))) s) in
  audio_bytes fs = skipn 44 (List.concat chunks)
  /\ List.length (audio_bytes fs) = (List.length (List.concat chunks) - 44)%nat
  /\ exists audio,
       fs = TTSStartedFrame :: audio ++ [TTSStoppedFrame]
       /\ forallb is_audio audio = true.
Proof.
  cbv zeta. split; [apply ok_audio_bytes | split].
  - rewrite ok_audio_bytes. apply length_skipn.
  - rewrite run_tts_frames. cbn [status text content ending Z.eqb Pos.eqb].
    eexists; split; [reflexivity | apply stream_frames_audio].
Qed.

(** Two deliveries of the same bytes give the same audio. *)
Corollary audio_independent_of_chunking text_in body chunks chunks' s :
  List.concat chunks = List.concat chunks' ->
  audio_bytes (frames (run_tts text_in
                 (Responds (mkResponse 200 body (mkContent chunks EndOfStream))) s))
  = audio_bytes (frames (run_tts text_in
                 (Responds (mkResponse 200 body (mkContent chunks' EndOfStream))) s)).
Proof. intros H. rewrite !ok_audio_bytes, H. reflexivity. Qed.

(** A 44-byte header and six bytes of PCM, delivered one byte at a time and
    re-chunked by four. *)
Example one_byte_chunks :
  frames (run_tts "hello"
            (Responds
               (mkResponse 200 (Returned "")
                  (mkContent
                     (List.map (fun x => [x])
                        (List.repeat Byte.x00 44
                         ++ [Byte.x01; Byte.x02; Byte.x03; Byte.x04; Byte.x05;
                             Byte.x06]))
                     EndOfStream)))
            (__init__ "http://localhost:8000" None 24000 4))
  = [TTSStartedFrame;
     TTSAudioRawFrame [Byte.x01; Byte.x02; Byte.x03; Byte.x04] 24000 1;
     TTSAudioRawFrame [Byte.x05; Byte.x06] 24000 1;
     TTSStoppedFrame].
Proof. vm_compute. reflexivity. Qed.

(** The same bytes in one chunk; the stream breaks after it. *)
Example stream_breaks_after_header :
  frames (run_tts "hello"
            (Responds
               (mkResponse 200 (Returned "")
                  (mkContent
                     [List.repeat Byte.x00 44
                      ++ [Byte.x01; Byte.x02; Byte.x03; Byte.x04; Byte.x05;
                          Byte.x06]]
                     (StreamRaises (mkException "Response payload is not completed")))))
            (__init__ "http://localhost:8000" None 24000 4))
  = [TTSStartedFrame;
     TTSAudioRawFrame [Byte.x01; Byte.x02; Byte.x03; Byte.x04] 24000 1;
     ErrorFrame "Pocket TTS exception: Response payload is not completed";
     TTSStoppedFrame].
Proof. vm_compute. reflexivity. Qed.

(** C7.  An exception raised by the request, by the body read or by the
    stream read does not leave [run_tts]: the call returns, its frames hold
    exactly one error frame, the one made from the exception, and the adapter
    is left with an open session, so that a later call behaves as it would
    have without the failure. *)
Theorem exception_becomes_one_error_frame text_in peer s e :
  raises e peer ->
  result (run_tts text_in peer s) = Returned tt
  /\ count is_error (frames (run_tts text_in peer s)) = 1%nat
  /\ In (exception_frame e) (frames (run_tts text_in peer s))
  /\ _session (after (run_tts text_in peer s)) = Some SessionOpen
  /\ forall text' peer',
       result (run_tts text' peer' (after (run_tts text_in peer s)))
       = Returned tt
       /\ frames (run_tts text' peer' (after (run_tts text_in peer s)))
          = frames (run_tts text' peer' s).
Proof.
  intros Hraises.
  destruct (run_tts_after text_in peer s) as [Hsess [Hsize [Hrate _]]].
  split; [apply run_tts_result | split; [|split; [|split]]].
  - rewrite run_tts_frames.
    destruct Hraises as [ | st c Hst | t chunks ]; cbn [status text content ending].
    + reflexivity.
    + apply Z.eqb_neq in Hst; rewrite Hst; reflexivity.
    + cbn [Z.eqb Pos.eqb]. unfold _stream_audio_frames_from_iterator.
      cbn [delivered ending].
      pose proof (stream_frames_audio (chunk_size s) (sample_rate s)
                    WAV_HEADER_SIZE [] chunks (StreamRaises e)) as Haudio.
      destruct (audio_only _ Haudio) as [_ [Herr _]].
      change (TTSStartedFrame :: ?l) with ([TTSStartedFrame] ++ l).
      rewrite !count_app, Herr. reflexivity.
  - rewrite run_tts_frames.
    destruct Hraises as [ | st c Hst | t chunks ]; cbn [status text content ending].
    + left; reflexivity.
    + apply Z.eqb_neq in Hst; rewrite Hst; left; reflexivity.
    + cbn [Z.eqb Pos.eqb]. right. apply in_or_app. right. left. reflexivity.
  - exact Hsess.
  - intros text' peer'. split; [apply run_tts_result|].
    apply run_tts_frames_config; assumption.
Qed.

Lemma exception_becomes_one_error_frame_witness :
  frames (run_tts "hello" (PostRaises (mkException "Connection refused"))
                  (__init__ "http://localhost:8000" None 24000 4096))
  = [ErrorFrame "Pocket TTS exception: Connection refused"; TTSStoppedFrame]
  /\ count is_error
       (frames (run_tts "hello" (PostRaises (mkException "Connection refused"))
                        (__init__ "http://localhost:8000" None 24000 4096)))
     = 1%nat.
Proof.
  split; [reflexivity|].
  refine (proj1 (proj2 (exception_becomes_one_error_frame _ _ _ _ _))).
  constructor.
Defined.

End KyutaiFacts.

(** * Properties of the Vosk STT adapter *)

Module VoskFacts.
Import Vosk.

Ltac step :=
  cbv beta iota zeta delta
    [on_message _receive_messages _connect_websocket _disconnect_websocket
     _connect _disconnect run_stt websockets_connect websocket_send
     websocket_close push_frame logger_error start_ttfb_metrics
     stop_ttfb_metrics start_processing_metrics stop_processing_metrics
     json_loads contains getitem socket_outcome payload now
     try_finally try_except bind modify yield await get ret raise];
  cbn [frames after result app _websocket].

(** ** One message *)

(** Handling a decoded message pushes the frames of its recognized shape
    and leaves the adapter as it was. *)
Lemma on_message_run data t (s : VoskSTTService) :
  frames (on_message (mkArrival (JsonText data) t) s) = recognized s t data
  /\ after (on_message (mkArrival (JsonText data) t) s) = s.
Proof.
  destruct data as [ | b | n | x | str | items | fields]; step;
    try (split; reflexivity).
  - destruct (str_contains "text" str); step; [split; reflexivity|].
    destruct (str_contains "partial" str); step; split; reflexivity.
  - destruct (existsb (is_str "text") items); step; [split; reflexivity|].
    destruct (existsb (is_str "partial") items); step; split; reflexivity.
  - cbn [recognized].
    destruct (dict_get "text" fields) as [v|]; step.
    + destruct (truthy v); step; split; reflexivity.
    + destruct (dict_get "partial" fields) as [v|]; step;
        [destruct (truthy v); step|]; split; reflexivity.
Qed.

Lemma on_message_malformed error t (s : VoskSTTService) :
  on_message (mkArrival (Malformed error) t) s = mkRun [] s (Raised error).
Proof. reflexivity. Qed.

Lemma recognized_no_error s t data :
  count is_error (recognized s t data) = 0%nat.
Proof.
  destruct data; try reflexivity. cbn [recognized].
  destruct (dict_get "text" fields) as [v|];
    [destruct (truthy v); reflexivity|].
  destruct (dict_get "partial" fields) as [v|];
    [destruct (truthy v)|]; reflexivity.
Qed.

Lemma on_message_after a (s : VoskSTTService) :
  after (on_message a s) = s.
Proof.
  destruct a as [[data | error] t];
    [apply on_message_run | reflexivity].
Qed.

Lemma on_message_no_error a (s : VoskSTTService) :
  count is_error (frames (on_message a s)) = 0%nat.
Proof.
  destruct a as [[data | error] t]; [|reflexivity].
  rewrite (proj1 (on_message_run data t s)). apply recognized_no_error.
Qed.

(** ** The loop *)

Lemma loop_after inbound fin (s : VoskSTTService) :
  after (async_for inbound fin on_message s) = s.
Proof.
  induction inbound as [|a rest IH]; [reflexivity|].
  simpl async_for. unfold bind.
  pose proof (on_message_after a s) as Ha.
  destruct (on_message a s) as [fs s1 [[] | e]]; cbn [after] in *; subst s1.
  - specialize IH. destruct (async_for rest fin on_message s); exact IH.
  - reflexivity.
Qed.

Lemma loop_no_error inbound fin (s : VoskSTTService) :
  count is_error (frames (async_for inbound fin on_message s)) = 0%nat.
Proof.
  induction inbound as [|a rest IH]; [reflexivity|].
  simpl async_for. unfold bind.
  pose proof (on_message_after a s) as Ha.
  pose proof (on_message_no_error a s) as He.
  destruct (on_message a s) as [fs s1 [[] | e]]; cbn [after frames] in *;
    subst s1; [|exact He].
  destruct (async_for rest fin on_message s) as [fs' s2 o]; cbn [frames] in *.
  rewrite count_app, He, IH. reflexivity.
Qed.

(** A message whose handling raises ends the loop there: what came before
    has been handled, what comes after is not read. *)
Lemma loop_stops_at_raise before a rest fin e (s : VoskSTTService) :
  result (async_for before (Returned tt) on_message s) = Returned tt ->
  result (on_message a s) = Raised e ->
  result (async_for (before ++ a :: rest) fin on_message s) = Raised e
  /\ frames (async_for (before ++ a :: rest) fin on_message s)
     = frames (async_for before (Returned tt) on_message s)
       ++ frames (on_message a s).
Proof.
  induction before as [|x before IH]; intros Hbefore Ha.
  - simpl. unfold bind.
    destruct (on_message a s) as [fs s1 o]; cbn [result] in Ha; subst o.
    split; reflexivity.
  - simpl app. simpl async_for in *. unfold bind in *.
    pose proof (on_message_after x s) as Hx.
    destruct (on_message x s) as [fs s1 [[] | e']]; cbn [after] in Hx; subst s1.
    + destruct (async_for before (Returned tt) on_message s) as [fs1 s1 o1] eqn:E1.
      cbn [result] in Hbefore.
      destruct (IH Hbefore Ha) as [Hres Hfr].
      destruct (async_for (before ++ a :: rest) fin on_message s) as [fs2 s2 o2].
      cbn [result frames] in *. subst. split; [reflexivity|].
      rewrite app_assoc. reflexivity.
    + discriminate Hbefore.
Qed.

Lemma receive_messages_connected inbound fin ws (s : VoskSTTService) :
  _websocket s = Some ws ->
  frames (_receive_messages inbound fin s)
  = frames (async_for inbound (socket_outcome fin) on_message s)
  /\ result (_receive_messages inbound fin s)
     = result (async_for inbound (socket_outcome fin) on_message s).
Proof.
  intros Hws. unfold _receive_messages, bind, get. rewrite Hws.
  destruct (async_for inbound (socket_outcome fin) on_message s).
  split; reflexivity.
Qed.

(** ** The claims on the receive loop *)

(** C2, as stated, fails: a message with an empty [text] and a non-empty
    [partial] contains a non-empty [partial] field and gives no event. *)
Lemma partial_hidden_by_text :
  nonempty_field "partial" (JDict [("text", JStr ""); ("partial", JStr "hello")])
  = true
  /\ frames (on_message
               (mkArrival
                  (JsonText (JDict [("text", JStr ""); ("partial", JStr "hello")]))
                  "2026-01-01T00:00:00.000+00:00")
               (set_websocket (Some 1) (__init__ "ws://localhost:2700" 16000 EN "")))
     = [].
Proof. split; reflexivity. Qed.

(** C2, amended.  A decoded message gives a final transcription exactly
    when it has a non-empty [text] field, an interim one exactly when it has
    no [text] field at all and a non-empty [partial] field, and no event
    otherwise; never more than one event, and nothing but transcriptions. *)
Theorem on_message_events data t self :
  frames (on_message (mkArrival (JsonText data) t) self) = recognized self t data
  /\ existsb is_final (frames (on_message (mkArrival (JsonText data) t) self))
     = nonempty_field "text" data
  /\ existsb is_partial (frames (on_message (mkArrival (JsonText data) t) self))
     = negb (has_field "text" data) && nonempty_field "partial" data
  /\ (List.length (frames (on_message (mkArrival (JsonText data) t) self)) <= 1)%nat.
Proof.
  rewrite (proj1 (on_message_run data t self)).
  split; [reflexivity|].
  destruct data as [ | b | n | x | str | items | fields];
    try (repeat split; auto).
  all: cbn [recognized nonempty_field has_field];
    destruct (dict_get "text" fields) as [v|];
    [destruct (truthy v); cbn; auto
    |destruct (dict_get "partial" fields) as [v|];
     [destruct (truthy v)|]; cbn; auto].
Qed.

(** Three partials and a final, in the order the backend sent them. *)
Example partials_then_final :
  frames (_receive_messages
            [mkArrival (JsonText (JDict [("partial", JStr "h")])) "t0";
             mkArrival (JsonText (JDict [("partial", JStr "he")])) "t1";
             mkArrival (JsonText (JDict [("partial", JStr "hello")])) "t2";
             mkArrival (JsonText (JDict [("text", JStr "hello")])) "t3"]
            ClosedOK
            (set_websocket (Some 1) (__init__ "ws://localhost:2700" 16000 EN "u")))
  = [InterimTranscriptionFrame (JStr "h") "u" "t0" EN;
     InterimTranscriptionFrame (JStr "he") "u" "t1" EN;
     InterimTranscriptionFrame (JStr "hello") "u" "t2" EN;
     TranscriptionFrame (JStr "hello") "u" "t3" EN].
Proof. reflexivity. Qed.

(** A JSON string that contains the word is not an object: indexing it
    raises, and the loop ends. *)
Example json_string_message :
  _receive_messages [mkArrival (JsonText (JStr "some text")) "t0"] ClosedOK
    (set_websocket (Some 1) (__init__ "ws://localhost:2700" 16000 EN "u"))
  = mkRun [] (set_websocket (Some 1) (__init__ "ws://localhost:2700" 16000 EN "u"))
          (Raised (mkException "string indices must be integers, not 'str'")).
Proof. reflexivity. Qed.

(** C4, as stated, fails: the loop reads a malformed message and then a
    final result; it pushes nothing, neither an error frame nor the final
    transcription, and ends by raising the decode error. *)
Lemma malformed_json_stops_the_loop :
  _receive_messages
    [mkArrival (Malformed (mkException "Expecting value: line 1 column 1 (char 0)"))
               "2026-01-01T00:00:00.000+00:00";
     mkArrival (JsonText (JDict [("text", JStr "hello")]))
               "2026-01-01T00:00:01.000+00:00"]
    ClosedOK
    (set_websocket (Some 1) (__init__ "ws://localhost:2700" 16000 EN ""))
  = mkRun []
          (set_websocket (Some 1) (__init__ "ws://localhost:2700" 16000 EN ""))
          (Raised (mkException "Expecting value: line 1 column 1 (char 0)")).
Proof. reflexivity. Qed.

(** C4, amended.  When [_receive_messages] reads a message that is not
    valid JSON, after messages it has handled, the decode error is raised out
    of it: the frames are those of the earlier messages, no error frame is
    pushed, and no later message is read, however the socket ends. *)
Theorem malformed_json_raises_out_of_the_loop before error t rest fin ws self :
  _websocket self = Some ws ->
  result (_receive_messages before ClosedOK self) = Returned tt ->
  result (_receive_messages (before ++ mkArrival (Malformed error) t :: rest)
                            fin self)
  = Raised error
  /\ frames (_receive_messages (before ++ mkArrival (Malformed error) t :: rest)
                               fin self)
     = frames (_receive_messages before ClosedOK self)
  /\ count is_error
       (frames (_receive_messages (before ++ mkArrival (Malformed error) t :: rest)
                                  fin self))
     = 0%nat.
Proof.
  intros Hws Hbefore.
  destruct (receive_messages_connected before ClosedOK ws self Hws) as [Hf0 Hr0].
  destruct (receive_messages_connected
              (before ++ mkArrival (Malformed error) t :: rest) fin ws self Hws)
    as [Hf1 Hr1].
  rewrite Hr0 in Hbefore. cbn [socket_outcome] in *.
  destruct (loop_stops_at_raise before (mkArrival (Malformed error) t) rest
              (socket_outcome fin) error self Hbefore eq_refl) as [Hres Hfr].
  rewrite Hr1, Hf1, Hf0, Hres, Hfr, on_message_malformed.
  cbn [frames]. rewrite app_nil_r.
  split; [reflexivity | split; [reflexivity | apply loop_no_error]].
Qed.

Lemma malformed_json_raises_out_of_the_loop_witness :
  frames (_receive_messages
            ([mkArrival (JsonText (JDict [("partial", JStr "h")])) "t0"]
             ++ mkArrival (Malformed (mkException "Expecting value")) "t1"
             :: [mkArrival (JsonText (JDict [("text", JStr "hello")])) "t2"])
            ClosedOK
            (set_websocket (Some 1) (__init__ "ws://localhost:2700" 16000 EN "")))
  = frames (_receive_messages
              [mkArrival (JsonText (JDict [("partial", JStr "h")])) "t0"]
              ClosedOK
              (set_websocket (Some 1) (__init__ "ws://localhost:2700" 16000 EN ""))).
Proof.
  refine (proj1 (proj2 (malformed_json_raises_out_of_the_loop
                          _ _ _ _ _ 1 _ _ _))); reflexivity.
Defined.

(** ** The claims on connecting and disconnecting *)

(** When the socket cannot be opened, [_connect_websocket] raises and keeps no
    handle. *)
Lemma open_failure_leaves_disconnected e hs self :
  Disconnected self ->
  result (_connect_websocket (mkConnect (Raised e) hs) self) = Raised e
  /\ Disconnected (after (_connect_websocket (mkConnect (Raised e) hs) self)).
Proof.
  unfold Disconnected. intros H. step. cbn. split; [reflexivity | exact H].
Qed.

(** C5 fails on the code.  The socket opens and the handshake cannot be
    sent: [_connect_websocket] raises, but the handle of the opened socket
    stays in [_websocket]; the next [run_stt] therefore does not connect and
    sends the audio on that socket. *)
Theorem handshake_failure_keeps_the_handle :
  result (_connect_websocket
            (mkConnect (Returned 7) (Raised (mkException "connection closed")))
            (__init__ "ws://localhost:2700" 16000 EN ""))
  = Raised (mkException "connection closed")
  /\ _websocket
       (after (_connect_websocket
                 (mkConnect (Returned 7) (Raised (mkException "connection closed")))
                 (__init__ "ws://localhost:2700" 16000 EN "")))
     = Some 7
  /\ wire
       (after (run_stt [Byte.x01; Byte.x02]
                 (mkConnect (Returned 8) (Returned tt)) (Returned tt)
                 (after (_connect_websocket
                           (mkConnect (Returned 7)
                                      (Raised (mkException "connection closed")))
                           (__init__ "ws://localhost:2700" 16000 EN "")))))
     = [Connect "ws://localhost:2700";
        SendText 7 (config_message 16000);
        SendBinary 7 [Byte.x01; Byte.x02]].
Proof. repeat split. Qed.

(** C9.  [_disconnect_websocket] never raises and leaves no handle; a second
    call changes nothing, and on an adapter that never connected the first
    call changes nothing either. *)
Theorem disconnect_idempotent self uri rate language user_id :
  result (_disconnect_websocket self) = Returned tt
  /\ Disconnected (after (_disconnect_websocket self))
  /\ _disconnect_websocket (after (_disconnect_websocket self))
     = mkRun [] (after (_disconnect_websocket self)) (Returned tt)
  /\ _disconnect_websocket (__init__ uri rate language user_id)
     = mkRun [] (__init__ uri rate language user_id) (Returned tt).
Proof.
  unfold Disconnected.
  destruct self as [u r l i [ws|] tb pb w el]; repeat split.
Qed.

End VoskFacts.

(** * More on the Pocket TTS adapter *)

Module KyutaiMore.
Import Kyutai KyutaiFacts.

(** ** The constructor *)

Lemma rstrip_slash_end (s : string) : ends_with_slash (rstrip_slash s) = false.
Proof.
  induction s as [|c rest IH]; [reflexivity|].
  simpl. destruct (rstrip_slash rest) as [|c' kept] eqn:E.
  - destruct (Ascii.eqb c "/") eqn:Hc; simpl; [reflexivity | exact Hc].
  - simpl in *. exact IH.
Qed.

Lemma rstrip_slash_split (s : string) :
  exists k, s = (rstrip_slash s ++ slashes k)%string.
Proof.
  induction s as [|c rest [k IH]]; [exists 0%nat; reflexivity|].
  simpl. destruct (rstrip_slash rest) as [|c' kept] eqn:E.
  - destruct (Ascii.eqb c "/") eqn:Hc.
    + apply Ascii.eqb_eq in Hc; subst c. exists (S k).
      simpl in *. rewrite IH at 1. reflexivity.
    + exists k. simpl in *. rewrite IH at 1. reflexivity.
  - exists k. simpl in *. rewrite IH at 1. reflexivity.
Qed.

(** ** What a call leaves behind *)

Ltac settle :=
  cbv beta iota delta
    [set_ttfb add_error_log add_usage add_post set_session _base_url _voice_id
     sample_rate chunk_size _session ttfb_open usage_reports posted error_log
     after];
  rewrite ?app_nil_r; reflexivity.

Lemma run_tts_state text_in peer s :
  after (run_tts text_in peer s)
  = mkService (_base_url s) (_voice_id s) (sample_rate s) (chunk_size s)
              (Some SessionOpen) false
              (usage_reports s
               ++ if is_ok peer then [String.length text_in] else [])
              (posted s ++ [((_base_url s ++ "/tts")%string, text_in)])
              (error_log s ++ logged_errors peer).
Proof.
  destruct s as [bu vi sr cs sess tb us po el].
  destruct peer as [e | [st tx [chunks fin]]].
  - cbn [is_ok logged_errors]. destruct sess as [[|]|]; step; settle.
  - cbn [is_ok logged_errors status text content ending].
    destruct (st =? 200)%Z eqn:Hst.
    + destruct sess as [[|]|]; step; rewrite Hst; step;
        rewrite async_for_relay; step;
        unfold _stream_audio_frames_from_iterator;
        rewrite stream_frames_result; destruct fin; step;
        destruct (fst _); settle.
    + destruct sess as [[|]|]; step; rewrite Hst; step;
        destruct tx; step; settle.
Qed.

(** ** Properties *)

(** X1.  The base URL kept by the constructor is the one given without its
    trailing slashes: it does not end in a slash, and the one given is it
    followed by slashes only. *)
Theorem init_strips_trailing_slashes base_url voice rate size :
  ends_with_slash (_base_url (__init__ base_url voice rate size)) = false
  /\ exists k,
       base_url
       = (_base_url (__init__ base_url voice rate size) ++ slashes k)%string.
Proof.
  cbn [__init__ _base_url].
  split; [apply rstrip_slash_end | apply rstrip_slash_split].
Qed.

(** X2.  Every call posts exactly one request, to the base URL followed by
    [/tts], with the text to synthesize as its form field, whatever the peer
    does afterwards. *)
Theorem run_tts_posts_once text_in peer s :
  posted (after (run_tts text_in peer s))
  = posted s ++ [((_base_url s ++ "/tts")%string, text_in)].
Proof. rewrite run_tts_state. reflexivity. Qed.

(** X3.  The Start marker is yielded exactly when the response has status
    200, once, and then it is the first frame; on every other path the first
    frame is not a Start marker. *)
Theorem start_marker_only_on_200 text_in peer s :
  count is_started (frames (run_tts text_in peer s))
  = (if is_ok peer then 1 else 0)%nat
  /\ is_started (List.hd TTSStoppedFrame (frames (run_tts text_in peer s)))
     = is_ok peer.
Proof.
  rewrite run_tts_frames.
  destruct peer as [e | [st tx [chunks fin]]]; [split; reflexivity|].
  cbn [is_ok status text content ending].
  destruct (st =? 200)%Z; [|destruct tx; split; reflexivity].
  split; [|reflexivity].
  unfold _stream_audio_frames_from_iterator. cbn [delivered ending].
  pose proof (stream_frames_audio (chunk_size s) (sample_rate s)
                WAV_HEADER_SIZE [] chunks fin) as Haudio.
  destruct (audio_only _ Haudio) as [_ [_ Hstart]].
  change (TTSStartedFrame :: ?l) with ([TTSStartedFrame] ++ l).
  rewrite !count_app, Hstart. destruct fin; reflexivity.
Qed.

(** X4.  Usage is reported exactly when the response has status 200, once,
    with the length of the text; a call that fails before that reports
    nothing. *)
Theorem usage_reported_only_on_200 text_in peer s :
  usage_reports (after (run_tts text_in peer s))
  = usage_reports s ++ (if is_ok peer then [String.length text_in] else []).
Proof. rewrite run_tts_state. reflexivity. Qed.

(** X5.  Every error frame has its line in the error log and nothing else is
    logged as an error: a call adds as many lines as it yields error frames,
    one at most. *)
Theorem every_error_frame_is_logged text_in peer s :
  List.length (error_log (after (run_tts text_in peer s)))
  = (List.length (error_log s)
     + count is_error (frames (run_tts text_in peer s)))%nat
  /\ (count is_error (frames (run_tts text_in peer s)) <= 1)%nat.
Proof.
  rewrite run_tts_state, run_tts_frames. cbn [error_log].
  rewrite length_app.
  destruct peer as [e | [st tx [chunks fin]]]; [split; [reflexivity | cbn; lia]|].
  cbn [logged_errors status text content ending].
  destruct (st =? 200)%Z;
    [|destruct tx; split; [reflexivity | cbn; lia | reflexivity | cbn; lia]].
  unfold _stream_audio_frames_from_iterator. cbn [delivered ending].
  pose proof (stream_frames_audio (chunk_size s) (sample_rate s)
                WAV_HEADER_SIZE [] chunks fin) as Haudio.
  destruct (audio_only _ Haudio) as [_ [Herr _]].
  change (TTSStartedFrame :: ?l) with ([TTSStartedFrame] ++ l).
  rewrite !count_app, Herr. destruct fin; split; cbn; lia.
Qed.

(** X6.  [stop] leaves no session and a second [stop] does nothing; a
    [run_tts] after [stop] opens a session again and yields the frames it
    would have yielded before the [stop]. *)
Theorem run_tts_after_stop text_in peer s :
  _session (after (stop s)) = None
  /\ stop (after (stop s)) = mkRun [] (after (stop s)) (Returned tt)
  /\ frames (run_tts text_in peer (after (stop s)))
     = frames (run_tts text_in peer s)
  /\ _session (after (run_tts text_in peer (after (stop s)))) = Some SessionOpen.
Proof.
  split; [|split; [|split]].
  - destruct s as [bu vi sr cs [c|] tb us po el]; reflexivity.
  - destruct s as [bu vi sr cs [c|] tb us po el]; reflexivity.
  - apply run_tts_frames_config;
      destruct s as [bu vi sr cs [c|] tb us po el]; reflexivity.
  - rewrite run_tts_state. reflexivity.
Qed.

(** X7.  Whatever the peer does, [run_tts] returns without raising, keeps
    the configuration of the adapter, and leaves it with an open session and
    a closed TTFB window. *)
Theorem run_tts_always_returns text_in peer s :
  result (run_tts text_in peer s) = Returned tt
  /\ _base_url (after (run_tts text_in peer s)) = _base_url s
  /\ _voice_id (after (run_tts text_in peer s)) = _voice_id s
  /\ sample_rate (after (run_tts text_in peer s)) = sample_rate s
  /\ chunk_size (after (run_tts text_in peer s)) = chunk_size s
  /\ _session (after (run_tts text_in peer s)) = Some SessionOpen
  /\ ttfb_open (after (run_tts text_in peer s)) = false.
Proof.
  rewrite run_tts_state. split; [apply run_tts_result | repeat split].
Qed.

End KyutaiMore.

(** * More on the Vosk STT adapter *)

Module VoskMore.
Import Vosk VoskFacts.

Ltac settle :=
  cbv beta iota delta
    [set_websocket set_ttfb set_processing add_wire add_error_log _uri
     _sample_rate _language _user_id _websocket ttfb_open processing_open wire
     error_log after frames result];
  rewrite <- ?app_assoc; cbn [app]; repeat split.

Ltac go :=
  unfold run_stt, _connect, _connect_websocket;
  cbn [opening handshake]; step; settle.

(** ** Connecting *)

(** X8.  A connect that succeeds opens the socket at the adapter's URI,
    sends one text frame, the configuration with the adapter's sample rate,
    keeps the handle, and logs and yields nothing. *)
Theorem connect_sends_one_handshake ws self :
  result (_connect_websocket (mkConnect (Returned ws) (Returned tt)) self)
  = Returned tt
  /\ frames (_connect_websocket (mkConnect (Returned ws) (Returned tt)) self) = []
  /\ _websocket
       (after (_connect_websocket (mkConnect (Returned ws) (Returned tt)) self))
     = Some ws
  /\ wire (after (_connect_websocket (mkConnect (Returned ws) (Returned tt)) self))
     = wire self
       ++ [Connect (_uri self);
           SendText ws (JDict [("config",
                                JDict [("sample_rate", JInt (_sample_rate self))])])]
  /\ error_log
       (after (_connect_websocket (mkConnect (Returned ws) (Returned tt)) self))
     = error_log self.
Proof. destruct self as [u r l i w tb pb wi el]. go. Qed.

(** X9.  A connect that fails raises to its caller the very exception of
    the operation that failed and logs it once.  When the socket cannot be
    opened, nothing is sent and the handle is left as it was. *)
Theorem connect_failure_is_logged_and_reraised e hs ws self :
  (result (_connect_websocket (mkConnect (Raised e) hs) self) = Raised e
   /\ error_log (after (_connect_websocket (mkConnect (Raised e) hs) self))
      = error_log self ++ [("Error connecting to Vosk: " ++ str_e e)%string]
   /\ wire (after (_connect_websocket (mkConnect (Raised e) hs) self))
      = wire self ++ [Connect (_uri self)]
   /\ _websocket (after (_connect_websocket (mkConnect (Raised e) hs) self))
      = _websocket self)
  /\ (result (_connect_websocket (mkConnect (Returned ws) (Raised e)) self)
      = Raised e
      /\ error_log
           (after (_connect_websocket (mkConnect (Returned ws) (Raised e)) self))
         = error_log self ++ [("Error connecting to Vosk: " ++ str_e e)%string]).
Proof. destruct self as [u r l i w tb pb wi el]. split; go. Qed.

(** X10.  Whether or not the handshake went through, a disconnect after a
    connect that opened a socket closes that socket, once, and leaves no
    handle. *)
Theorem disconnect_closes_the_opened_socket ws hs self :
  result (_disconnect_websocket
            (after (_connect_websocket (mkConnect (Returned ws) hs) self)))
  = Returned tt
  /\ _websocket
       (after (_disconnect_websocket
                 (after (_connect_websocket (mkConnect (Returned ws) hs) self))))
     = None
  /\ wire
       (after (_disconnect_websocket
                 (after (_connect_websocket (mkConnect (Returned ws) hs) self))))
     = wire self
       ++ [Connect (_uri self);
           SendText ws (config_message (_sample_rate self));
           Close ws].
Proof.
  destruct self as [u r l i w tb pb wi el].
  destruct hs as [[] | e]; go.
Qed.

(** ** Sending audio *)

(** X11.  On a connected adapter [run_stt] does not connect: it sends the
    audio, unchanged, as one binary frame on the socket it holds, yields no
    frame, keeps the handle and closes both metrics windows. *)
Theorem run_stt_forwards_audio audio peer ws self :
  result (run_stt audio peer (Returned tt) (set_websocket (Some ws) self))
  = Returned tt
  /\ frames (run_stt audio peer (Returned tt) (set_websocket (Some ws) self)) = []
  /\ wire (after (run_stt audio peer (Returned tt)
                          (set_websocket (Some ws) self)))
     = wire self ++ [SendBinary ws audio]
  /\ _websocket (after (run_stt audio peer (Returned tt)
                                (set_websocket (Some ws) self)))
     = Some ws
  /\ ttfb_open (after (run_stt audio peer (Returned tt)
                               (set_websocket (Some ws) self)))
     = false
  /\ processing_open (after (run_stt audio peer (Returned tt)
                                     (set_websocket (Some ws) self)))
     = false.
Proof. destruct self as [u r l i w tb pb wi el]. go. Qed.

(** X12.  When sending the audio raises, [run_stt] does not raise: it yields
    one error frame made from the exception and logs it.  The handle is kept,
    so the adapter still counts as connected. *)
Theorem run_stt_send_failure audio peer e ws self :
  result (run_stt audio peer (Raised e) (set_websocket (Some ws) self))
  = Returned tt
  /\ frames (run_stt audio peer (Raised e) (set_websocket (Some ws) self))
     = [ErrorFrame ("Vosk STT error: " ++ str_e e)%string]
  /\ error_log (after (run_stt audio peer (Raised e)
                               (set_websocket (Some ws) self)))
     = error_log self ++ [("Vosk STT error: " ++ str_e e)%string]
  /\ _websocket (after (run_stt audio peer (Raised e)
                                (set_websocket (Some ws) self)))
     = Some ws
  /\ ttfb_open (after (run_stt audio peer (Raised e)
                               (set_websocket (Some ws) self)))
     = false
  /\ processing_open (after (run_stt audio peer (Raised e)
                                     (set_websocket (Some ws) self)))
     = false.
Proof. destruct self as [u r l i w tb pb wi el]. go. Qed.

(** X13.  On an adapter without a connection, a connect that fails makes
    [run_stt] raise the same exception: no error frame is yielded, the audio
    is not sent and the metrics windows are not opened. *)
Theorem run_stt_connect_failure_propagates audio e hs ws sending self :
  (result (run_stt audio (mkConnect (Raised e) hs) sending
                   (set_websocket None self))
   = Raised e
   /\ frames (run_stt audio (mkConnect (Raised e) hs) sending
                      (set_websocket None self)) = []
   /\ wire (after (run_stt audio (mkConnect (Raised e) hs) sending
                           (set_websocket None self)))
      = wire self ++ [Connect (_uri self)]
   /\ processing_open (after (run_stt audio (mkConnect (Raised e) hs) sending
                                      (set_websocket None self)))
      = processing_open self)
  /\ (result (run_stt audio (mkConnect (Returned ws) (Raised e)) sending
                      (set_websocket None self))
      = Raised e
      /\ frames (run_stt audio (mkConnect (Returned ws) (Raised e)) sending
                         (set_websocket None self)) = []
      /\ wire (after (run_stt audio (mkConnect (Returned ws) (Raised e)) sending
                              (set_websocket None self)))
         = wire self
           ++ [Connect (_uri self);
               SendText ws (config_message (_sample_rate self))]).
Proof. destruct self as [u r l i w tb pb wi el]. split; go. Qed.

(** X14.  On an adapter without a connection, [run_stt] connects first: the
    socket is opened, the configuration is sent, and only then the audio, on
    the socket just opened, which is kept. *)
Theorem run_stt_connects_before_sending audio ws self :
  result (run_stt audio (mkConnect (Returned ws) (Returned tt)) (Returned tt)
                  (set_websocket None self))
  = Returned tt
  /\ wire (after (run_stt audio (mkConnect (Returned ws) (Returned tt))
                          (Returned tt) (set_websocket None self)))
     = wire self
       ++ [Connect (_uri self);
           SendText ws (config_message (_sample_rate self));
           SendBinary ws audio]
  /\ _websocket (after (run_stt audio (mkConnect (Returned ws) (Returned tt))
                                (Returned tt) (set_websocket None self)))
     = Some ws.
Proof. destruct self as [u r l i w tb pb wi el]. go. Qed.

(** ** The receive loop *)

(** Indexing is guarded by the membership test: an object never makes the
    handling of its message raise. *)
Lemma on_message_object fields t (s : VoskSTTService) :
  result (on_message (mkArrival (JsonText (JDict fields)) t) s) = Returned tt.
Proof.
  step. destruct (dict_get "text" fields) as [v|]; step.
  - destruct (truthy v); reflexivity.
  - destruct (dict_get "partial" fields) as [v|]; step;
      [destruct (truthy v)|]; reflexivity.
Qed.

Lemma on_message_of_object a (s : VoskSTTService) :
  is_object a = true ->
  on_message a s = mkRun (events_of s a) s (Returned tt).
Proof.
  destruct a as [[data | error] t]; [|discriminate].
  destruct data; try discriminate. intros _.
  pose proof (on_message_run (JDict fields) t s) as [Hf Ha].
  pose proof (on_message_object fields t s) as Hr.
  destruct (on_message (mkArrival (JsonText (JDict fields)) t) s) as [fs s1 o].
  cbn [frames after result] in *. subst. reflexivity.
Qed.

Lemma loop_on_objects inbound fin (s : VoskSTTService) :
  forallb is_object inbound = true ->
  async_for inbound fin on_message s
  = mkRun (List.flat_map (events_of s) inbound) s fin.
Proof.
  induction inbound as [|a rest IH]; intros Hobj; [reflexivity|].
  cbn [forallb] in Hobj. apply andb_prop in Hobj. destruct Hobj as [Ha Hrest].
  simpl async_for. unfold bind.
  rewrite (on_message_of_object a s Ha), (IH Hrest). reflexivity.
Qed.

(** X15.  On a stream of JSON objects the loop never raises by itself: it
    ends as the socket ends, by returning on a clean close and by raising the
    socket's exception otherwise, after pushing the events of all the
    messages, in the order of their arrival. *)
Theorem receive_loop_on_objects inbound fin ws self :
  _websocket self = Some ws ->
  forallb is_object inbound = true ->
  frames (_receive_messages inbound fin self)
  = List.flat_map (events_of self) inbound
  /\ result (_receive_messages inbound fin self) = socket_outcome fin.
Proof.
  intros Hws Hobj.
  destruct (receive_messages_connected inbound fin ws self Hws) as [Hf Hr].
  rewrite Hf, Hr, (loop_on_objects inbound (socket_outcome fin) self Hobj).
  split; reflexivity.
Qed.

Lemma receive_loop_on_objects_witness :
  result (_receive_messages
            [mkArrival (JsonText (JDict [("partial", JStr "he")])) "t0";
             mkArrival (JsonText (JDict [("text", JStr "hello");
                                         ("result", JList [])])) "t1"]
            (ClosedError (mkException "no close frame received or sent"))
            (set_websocket (Some 1) (__init__ "ws://localhost:2700" 16000 EN "")))
  = Raised (mkException "no close frame received or sent").
Proof.
  refine (proj2 (receive_loop_on_objects _ _ 1 _ _ _)); reflexivity.
Defined.

(** X16.  The receive loop only reads: whatever it receives and however it
    ends, a socket error included, it leaves the adapter as it found it; the
    handle is not reset, nothing is sent and nothing is logged. *)
Theorem receive_loop_leaves_the_adapter inbound fin self :
  after (_receive_messages inbound fin self) = self.
Proof.
  unfold _receive_messages, bind, get.
  destruct (_websocket self) as [ws|]; [|reflexivity].
  pose proof (loop_after inbound (socket_outcome fin) self) as H.
  destruct (async_for inbound (socket_outcome fin) on_message self).
  exact H.
Qed.

(** X17.  A message that decodes to [null], a boolean or a number ends the
    loop: the membership test raises, nothing is pushed for the message and
    the messages after it are not read. *)
Theorem scalar_message_ends_the_loop before data t rest fin ws self :
  _websocket self = Some ws ->
  result (_receive_messages before ClosedOK self) = Returned tt ->
  is_scalar data = true ->
  (exists e,
     result (_receive_messages (before ++ mkArrival (JsonText data) t :: rest)
                               fin self)
     = Raised e)
  /\ frames (_receive_messages (before ++ mkArrival (JsonText data) t :: rest)
                               fin self)
     = frames (_receive_messages before ClosedOK self).
Proof.
  intros Hws Hbefore Hscalar.
  destruct (receive_messages_connected before ClosedOK ws self Hws) as [Hf0 Hr0].
  destruct (receive_messages_connected
              (before ++ mkArrival (JsonText data) t :: rest) fin ws self Hws)
    as [Hf1 Hr1].
  rewrite Hr0 in Hbefore. cbn [socket_outcome] in *.
  assert (Hraise : exists e,
             on_message (mkArrival (JsonText data) t) self
             = mkRun [] self (Raised e)).
  { destruct data; try discriminate; eexists; reflexivity. }
  destruct Hraise as [e He].
  destruct (loop_stops_at_raise before (mkArrival (JsonText data) t) rest
              (socket_outcome fin) e self Hbefore) as [Hres Hfr];
    [rewrite He; reflexivity|].
  rewrite Hr1, Hf1, Hf0, Hres, Hfr, He. cbn [frames]. rewrite app_nil_r.
  split; [exists e; reflexivity | reflexivity].
Qed.

Lemma scalar_message_ends_the_loop_witness :
  frames (_receive_messages
            ([mkArrival (JsonText (JDict [("partial", JStr "h")])) "t0"]
             ++ mkArrival (JsonText (JInt 42)) "t1"
             :: [mkArrival (JsonText (JDict [("text", JStr "hello")])) "t2"])
            ClosedOK
            (set_websocket (Some 1) (__init__ "ws://localhost:2700" 16000 EN "")))
  = frames (_receive_messages
              [mkArrival (JsonText (JDict [("partial", JStr "h")])) "t0"]
              ClosedOK
              (set_websocket (Some 1) (__init__ "ws://localhost:2700" 16000 EN ""))).
Proof.
  refine (proj2 (scalar_message_ends_the_loop _ _ _ _ _ 1 _ _ _ _));
    reflexivity.
Defined.

End VoskMore.
